(** * list_compile_options.py: a shallow embedding

    The script opens an in-memory SQLite connection, runs
    [PRAGMA compile_options;], prints the first field of every row and
    closes the connection.  The [sqlite3] driver and the interpreter are
    the environment: the driver is an [engine] that answers [connect] and
    [execute]; the interpreter's state (open connections, the cursor's
    pending rows, what was written to standard output) is a [world]
    threaded through a state-and-exception monad. *)

From Stdlib Require Import String Ascii List ZArith Lia Bool DecimalString.
Import ListNotations.
Open Scope string_scope.

(** ** Data *)

(** The Python values the driver puts in a row: [None], [int], [str]. *)
Inductive value : Type :=
| VNone
| VInt (n : Z)
| VStr (s : string).

(** A result row is a Python tuple. *)
Definition row : Type := list value.

(** The exceptions the script can meet: one of the driver's
    ([sqlite3.OperationalError], [sqlite3.ProgrammingError], ...) or the
    [IndexError] of a tuple subscript. *)
Inductive exn : Type :=
| Sqlite3Error (cls msg : string)
| IndexError (msg : string).

(** Connections are named by handles; a cursor remembers its connection. *)
Definition handle : Type := nat.
Definition cursor : Type := handle.

(** What the program does to its environment, in order. *)
Inductive event : Type :=
| Connected (db : string) (c : handle)
| Executed (sql : string)
| Fetched (n : nat)
| Written (s : string)
| Closed (c : handle).

(** The database engine behind the driver: whether it hands out a
    connection to a database, and how it answers one SQL statement. *)
Record engine : Type := {
  eng_connect : string -> option exn;
  eng_execute : string -> exn + list row
}.

Record world : Type := {
  w_argv : list string;      (* sys.argv *)
  w_trace : list event;      (* oldest event first *)
  w_open : list handle;      (* connections currently open *)
  w_next : handle;           (* next fresh handle *)
  w_result : list row        (* rows pending on the cursor *)
}.

Definition initial_world (argv : list string) : world :=
  {| w_argv := argv; w_trace := []; w_open := []; w_next := 0; w_result := [] |}.

Definition log (ev : event) (w : world) : world :=
  {| w_argv := w_argv w; w_trace := w_trace w ++ [ev]; w_open := w_open w;
     w_next := w_next w; w_result := w_result w |}.

Definition is_open (c : handle) (w : world) : bool :=
  existsb (Nat.eqb c) (w_open w).

(** ** The monad: state plus exceptions *)

Inductive result (A : Type) : Type :=
| Ok (a : A)
| Raise (e : exn).
Arguments Ok {A} a.
Arguments Raise {A} e.

Definition M (A : Type) : Type := world -> result A * world.

Definition ret {A} (a : A) : M A := fun w => (Ok a, w).

Definition raise {A} (e : exn) : M A := fun w => (Raise e, w).

Definition bind {A B} (m : M A) (k : A -> M B) : M B :=
  fun w =>
    match m w with
    | (Ok a, w') => k a w'
    | (Raise e, w') => (Raise e, w')
    end.

Declare Scope py_scope.
Delimit Scope py_scope with py.
Notation "x <- m ;; k" := (bind m (fun x => k))
  (at level 61, m at next level, right associativity) : py_scope.
Notation "m ;;; k" := (bind m (fun _ => k))
  (at level 61, right associativity) : py_scope.
Open Scope py_scope.

(** [for x in xs: body(x)] *)
Fixpoint for_each {A} (xs : list A) (body : A -> M unit) : M unit :=
  match xs with
  | [] => ret tt
  | x :: xs' => body x ;;; for_each xs' body
  end.

(** ** Python built-ins used by the script *)

(** [format(v)], what an f-string replacement field [{v}] expands to. *)
Definition format_value (v : value) : string :=
  match v with
  | VNone => "None"
  | VInt n => NilZero.string_of_int (Z.to_int n)
  | VStr s => s
  end.

Definition newline : string := String (ascii_of_nat 10) EmptyString.

(** [print(s)]: the text and a line break go to standard output. *)
Definition print (s : string) : M unit :=
  fun w => (Ok tt, log (Written (s ++ newline)) w).

(** [t[i]] on a tuple. *)
Definition getitem (t : row) (i : nat) : M value :=
  match nth_error t i with
  | Some v => ret v
  | None => raise (IndexError "tuple index out of range")
  end.

Definition closed_database : exn :=
  Sqlite3Error "ProgrammingError" "Cannot operate on a closed database.".

(** ** The driver *)

Section Driver.

Variable E : engine.

(** [sqlite3.connect(db)] *)
Definition sqlite3_connect (db : string) : M handle :=
  fun w =>
    match eng_connect E db with
    | Some e => (Raise e, w)
    | None =>
        let c := w_next w in
        (Ok c,
         {| w_argv := w_argv w;
            w_trace := w_trace w ++ [Connected db c];
            w_open := c :: w_open w;
            w_next := S c;
            w_result := w_result w |})
    end.

(** [conn.cursor()] *)
Definition conn_cursor (conn : handle) : M cursor :=
  fun w => if is_open conn w then (Ok conn, w) else (Raise closed_database, w).

(** [cursor.execute(sql)]: the statement the cursor held before is
    dropped, with the rows still pending on it, whether the engine
    accepts the new one or not. *)
Definition cursor_execute (cur : cursor) (sql : string) : M unit :=
  fun w =>
    if is_open cur w then
      match eng_execute E sql with
      | inl e =>
          (Raise e,
           {| w_argv := w_argv w;
              w_trace := w_trace w;
              w_open := w_open w;
              w_next := w_next w;
              w_result := [] |})
      | inr rows =>
          (Ok tt,
           {| w_argv := w_argv w;
              w_trace := w_trace w ++ [Executed sql];
              w_open := w_open w;
              w_next := w_next w;
              w_result := rows |})
      end
    else (Raise closed_database, w).

(** [cursor.fetchall()]: every pending row at once; none stays behind. *)
Definition cursor_fetchall (cur : cursor) : M (list row) :=
  fun w =>
    if is_open cur w then
      (Ok (w_result w),
       {| w_argv := w_argv w;
          w_trace := w_trace w ++ [Fetched (length (w_result w))];
          w_open := w_open w;
          w_next := w_next w;
          w_result := [] |})
    else (Raise closed_database, w).

(** [conn.close()]: releases an open connection; closing again is a no-op. *)
Definition conn_close (conn : handle) : M unit :=
  fun w =>
    if is_open conn w then
      (Ok tt,
       {| w_argv := w_argv w;
          w_trace := w_trace w ++ [Closed conn];
          w_open := filter (fun c => negb (Nat.eqb conn c)) (w_open w);
          w_next := w_next w;
          w_result := w_result w |})
    else (Ok tt, w).

(** ** The script *)

Definition get_compile_options (cur : cursor) : M (list row) :=
  cursor_execute cur "PRAGMA compile_options;" ;;;
  cursor_fetchall cur.

(** The body of the print loop: [print(f"{option[0]}")]. *)
Definition print_option (option : row) : M unit :=
  field <- getitem option 0 ;;
  print (format_value field).

Definition main : M unit :=
  conn <- sqlite3_connect ":memory:" ;;
  cur <- conn_cursor conn ;;
  options_list <- get_compile_options cur ;;
  for_each options_list print_option ;;;
  conn_close conn.

(** [if __name__ == "__main__": main()] *)
Definition module_body (name : string) : M unit :=
  if String.eqb name "__main__" then main else ret tt.

End Driver.

(** ** The process *)

(** The last line of the traceback the interpreter writes for an uncaught
    exception (the frame lines before it quote the script's path). *)
Definition exn_line (e : exn) : string :=
  match e with
  | Sqlite3Error cls msg => "sqlite3." ++ cls ++ ": " ++ msg
  | IndexError msg => "IndexError: " ++ msg
  end.

Definition traceback (e : exn) : string :=
  "Traceback (most recent call last):" ++ newline ++ exn_line e ++ newline.

Fixpoint stdout_of (tr : list event) : string :=
  match tr with
  | [] => ""
  | Written s :: tr' => s ++ stdout_of tr'
  | _ :: tr' => stdout_of tr'
  end.

Fixpoint releases (tr : list event) : nat :=
  match tr with
  | [] => 0
  | Closed _ :: tr' => S (releases tr')
  | _ :: tr' => releases tr'
  end.

Fixpoint acquisitions (tr : list event) : nat :=
  match tr with
  | [] => 0
  | Connected _ _ :: tr' => S (acquisitions tr')
  | _ :: tr' => acquisitions tr'
  end.

Record outcome : Type := {
  events : list event;
  stdout : string;
  stderr : string;
  exit_status : Z;
  unclosed : list handle      (* connections the script had opened and not
                                 closed when it stopped; what the interpreter
                                 does with them while it shuts down is not
                                 part of the script *)
}.

(** Running the script as a program: [python list_compile_options.py argv].
    An exception that reaches the top level is reported on the error
    stream and the exit status is 1.  The outcome describes the run up to
    the point where the script stops. *)
Definition python (E : engine) (argv : list string) : outcome :=
  match module_body E "__main__" (initial_world argv) with
  | (Ok _, w) =>
      {| events := w_trace w; stdout := stdout_of (w_trace w);
         stderr := ""; exit_status := 0; unclosed := w_open w |}
  | (Raise e, w) =>
      {| events := w_trace w; stdout := stdout_of (w_trace w);
         stderr := traceback e; exit_status := 1; unclosed := w_open w |}
  end.

(** ** Vocabulary for the statements *)

Definition has_first (r : row) : bool :=
  match r with
  | [] => false
  | _ :: _ => true
  end.

(** The first field of every row, where there is one. *)
Definition first_fields (rows : list row) : list (option value) :=
  map (fun r => nth_error r 0) rows.

(** The first fields of the rows in front of the first empty row: the
    ones the print loop reaches. *)
Fixpoint reached_fields (rows : list row) : list value :=
  match rows with
  | (v :: _) :: rows' => v :: reached_fields rows'
  | _ => []
  end.

(** The first field of every row that has one, as printed. *)
Definition identifiers (rows : list row) : list string :=
  flat_map (fun r => match r with
                     | [] => []
                     | v :: _ => [format_value v]
                     end) rows.

(** The text made of the given lines, each followed by a line break. *)
Fixpoint unlines (ls : list string) : string :=
  match ls with
  | [] => ""
  | l :: ls' => l ++ newline ++ unlines ls'
  end.

Definition is_newline (c : ascii) : bool := Ascii.eqb c (ascii_of_nat 10).

Fixpoint has_newline (s : string) : bool :=
  match s with
  | EmptyString => false
  | String c s' => is_newline c || has_newline s'
  end.

(** The lines of a text: each ends at a line break; text after the last
    line break is a line of its own. *)
Fixpoint split_lines (s : string) : list string :=
  match s with
  | EmptyString => []
  | String c s' =>
      if is_newline c then "" :: split_lines s'
      else match split_lines s' with
           | [] => [String c ""]
           | l :: ls => String c l :: ls
           end
  end.

(** A text identifier as the engine contract describes it: a non-empty
    [str]. *)
Definition nonempty_text (v : value) : bool :=
  match v with
  | VStr (String _ _) => true
  | _ => false
  end.

Definition first_is_nonempty_text (r : row) : bool :=
  match r with
  | v :: _ => nonempty_text v
  | [] => false
  end.

Definition index_error : exn := IndexError "tuple index out of range".

Definition pragma : string := "PRAGMA compile_options;".

(** An engine that connects and answers the pragma with [rows]. *)
Definition engine_returning (rows : list row) : engine :=
  {| eng_connect := fun _ => None;
     eng_execute := fun sql =>
       if String.eqb sql pragma then inr rows
       else inl (Sqlite3Error "OperationalError" "syntax error") |}.

(** The build of the spec's example. *)
Definition example_rows : list row :=
  [[VStr "THREADSAFE"]; [VStr "ENABLE_FTS5"]].

(** An engine that connects and then rejects the pragma. *)
Definition engine_rejecting_query : engine :=
  {| eng_connect := fun _ => None;
     eng_execute := fun _ =>
       inl (Sqlite3Error "OperationalError" "unsupported pragma") |}.

(** An engine that cannot be reached at all. *)
Definition engine_unavailable : engine :=
  {| eng_connect := fun _ =>
       Some (Sqlite3Error "OperationalError" "unable to open database file");
     eng_execute := fun _ => inr [] |}.

(** A result whose second row is empty. *)
Definition rows_with_gap : list row :=
  [[VStr "THREADSAFE"]; []; [VStr "ENABLE_FTS5"]].

(** The result of the spec's example with further columns in each row. *)
Definition example_rows_wide : list row :=
  [[VStr "THREADSAFE"; VInt 1]; [VStr "ENABLE_FTS5"; VNone; VStr "x"]].

(** The build of the example, answering every other statement too. *)
Definition engine_example_verbose : engine :=
  {| eng_connect := fun db =>
       if String.eqb db ":memory:" then None
       else Some (Sqlite3Error "OperationalError" "unable to open database file");
     eng_execute := fun sql =>
       if String.eqb sql pragma then inr example_rows else inr [] |}.

(** The world of [main] just after a successful [connect]. *)
Definition connected_world (E : engine) : world :=
  snd (sqlite3_connect E ":memory:" (initial_world [])).

(** Handles are handed out in increasing order: every open connection
    is older than the next fresh handle. *)
Definition wf_world (w : world) : bool :=
  forallb (fun c => Nat.ltb c (w_next w)) (w_open w).


(** The events of one complete pass of [main] over [rows] on
    connection [c]. *)
Definition pass_events (c : handle) (rows : list row) : list event :=
  [Connected ":memory:" c; Executed pragma; Fetched (length rows)] ++
  map (fun l => Written (l ++ newline)) (identifiers rows) ++ [Closed c].

(** The SQL statements the engine has executed, in order. *)
Fixpoint statements (tr : list event) : list string :=
  match tr with
  | [] => []
  | Executed sql :: tr' => sql :: statements tr'
  | _ :: tr' => statements tr'
  end.

(** A cursor that still holds rows of an earlier statement. *)
Definition stale_world : world :=
  {| w_argv := []; w_trace := [Connected ":memory:" 0; Executed "SELECT 1;"];
     w_open := [0]; w_next := 1; w_result := [[VInt 1]] |}.

(** An interpreter with two connections already open. *)
Definition busy_world : world :=
  {| w_argv := []; w_trace := [Connected "a.db" 0; Connected "b.db" 1];
     w_open := [1; 0]; w_next := 2; w_result := [] |}.


Example example_run :
  stdout (python (engine_returning example_rows) []) =
    "THREADSAFE" ++ newline ++ "ENABLE_FTS5" ++ newline
  /\ exit_status (python (engine_returning example_rows) []) = 0%Z
  /\ events (python (engine_returning example_rows) []) =
       [Connected ":memory:" 0; Executed pragma; Fetched 2;
        Written ("THREADSAFE" ++ newline); Written ("ENABLE_FTS5" ++ newline);
        Closed 0].
Proof. repeat split; reflexivity. Qed.

(** ** Auxiliary facts *)

Lemma append_nil_r (s : string) : s ++ "" = s.
Proof. induction s as [|c s IH]; simpl; [reflexivity | now rewrite IH]. Qed.

Lemma append_assoc (a b c : string) : (a ++ b) ++ c = a ++ (b ++ c).
Proof. induction a as [|x a IH]; simpl; [reflexivity | now rewrite IH]. Qed.

Lemma stdout_of_app (t1 t2 : list event) :
  stdout_of (t1 ++ t2) = stdout_of t1 ++ stdout_of t2.
Proof.
  induction t1 as [|ev t1 IH]; simpl; [reflexivity|].
  destruct ev; simpl; rewrite IH; try reflexivity.
  now rewrite append_assoc.
Qed.

Lemma stdout_of_written (ls : list string) :
  stdout_of (map (fun l => Written (l ++ newline)) ls) = unlines ls.
Proof.
  induction ls as [|l ls IH]; simpl; [reflexivity|].
  now rewrite IH, append_assoc.
Qed.

Lemma releases_app (t1 t2 : list event) :
  releases (t1 ++ t2) = releases t1 + releases t2.
Proof.
  induction t1 as [|ev t1 IH]; simpl; [reflexivity|].
  destruct ev; simpl; rewrite IH; reflexivity.
Qed.

Lemma acquisitions_app (t1 t2 : list event) :
  acquisitions (t1 ++ t2) = acquisitions t1 + acquisitions t2.
Proof.
  induction t1 as [|ev t1 IH]; simpl; [reflexivity|].
  destruct ev; simpl; rewrite IH; reflexivity.
Qed.



Lemma unlines_cons (l : string) (ls : list string) :
  unlines (l :: ls) = l ++ newline ++ unlines ls.
Proof. reflexivity. Qed.

Lemma split_lines_line (s rest : string) :
  has_newline s = false ->
  split_lines (s ++ newline ++ rest) = s :: split_lines rest.
Proof.
  induction s as [|c s IH]; simpl in *; intros H.
  - reflexivity.
  - apply orb_false_iff in H as [Hc Hs].
    rewrite Hc, (IH Hs). reflexivity.
Qed.

Lemma split_lines_unlines (ls : list string) :
  forallb (fun l => negb (has_newline l)) ls = true ->
  split_lines (unlines ls) = ls.
Proof.
  induction ls as [|l ls IH]; intros H.
  - reflexivity.
  - simpl in H. apply andb_true_iff in H as [Hl Hls].
    apply negb_true_iff in Hl.
    rewrite unlines_cons, split_lines_line by assumption.
    now rewrite IH.
Qed.

Lemma written_fields (vs : list value) :
  map (fun v => Written (format_value v ++ newline)) vs =
  map (fun l => Written (l ++ newline)) (map format_value vs).
Proof. now rewrite map_map. Qed.

(** The print loop, run to its end or to its first empty row. *)
Lemma print_loop (rows : list row) (w : world) :
  for_each rows print_option w =
    (if forallb has_first rows then Ok tt else Raise index_error,
     {| w_argv := w_argv w;
        w_trace := w_trace w ++
          map (fun v => Written (format_value v ++ newline)) (reached_fields rows);
        w_open := w_open w;
        w_next := w_next w;
        w_result := w_result w |}).
Proof.
  revert w.
  induction rows as [|r rows IH]; intros w.
  - destruct w; simpl. now rewrite app_nil_r.
  - destruct r as [|v r].
    + destruct w; simpl. now rewrite app_nil_r.
    + simpl. unfold bind, print_option, bind, getitem. simpl.
      unfold ret, print. rewrite IH. simpl.
      now rewrite <- app_assoc.
Qed.

(** The lister on an open cursor: the engine's answer, whole. *)
Lemma get_compile_options_open (E : engine) (cur : cursor) (w : world) :
  is_open cur w = true ->
  get_compile_options E cur w =
    match eng_execute E pragma with
    | inl e =>
        (Raise e,
         {| w_argv := w_argv w;
            w_trace := w_trace w;
            w_open := w_open w;
            w_next := w_next w;
            w_result := [] |})
    | inr rows =>
        (Ok rows,
         {| w_argv := w_argv w;
            w_trace := w_trace w ++ [Executed pragma; Fetched (length rows)];
            w_open := w_open w;
            w_next := w_next w;
            w_result := [] |})
    end.
Proof.
  intros Hopen.
  unfold get_compile_options, bind, cursor_execute, cursor_fetchall, pragma.
  rewrite Hopen.
  destruct (eng_execute E "PRAGMA compile_options;") as [e|rows]; [reflexivity|].
  unfold is_open in *. simpl. rewrite Hopen. simpl.
  now rewrite <- app_assoc.
Qed.

(** Every run of the program, by the engine's two answers. *)
Lemma python_cases (E : engine) (argv : list string) :
  python E argv =
    match eng_connect E ":memory:" with
    | Some e =>
        {| events := []; stdout := ""; stderr := traceback e;
           exit_status := 1; unclosed := [] |}
    | None =>
        match eng_execute E pragma with
        | inl e =>
            {| events := [Connected ":memory:" 0]; stdout := "";
               stderr := traceback e; exit_status := 1; unclosed := [0] |}
        | inr rows =>
            let lines := map format_value (reached_fields rows) in
            let shown := map (fun l => Written (l ++ newline)) lines in
            if forallb has_first rows then
              {| events := [Connected ":memory:" 0; Executed pragma;
                            Fetched (length rows)] ++ shown ++ [Closed 0];
                 stdout := unlines lines; stderr := "";
                 exit_status := 0; unclosed := [] |}
            else
              {| events := [Connected ":memory:" 0; Executed pragma;
                            Fetched (length rows)] ++ shown;
                 stdout := unlines lines; stderr := traceback index_error;
                 exit_status := 1; unclosed := [0] |}
        end
    end.
Proof.
  unfold python, module_body. simpl String.eqb. cbv iota.
  unfold main, bind at 1, sqlite3_connect.
  destruct (eng_connect E ":memory:") as [e|]; [reflexivity|].
  unfold bind at 1, conn_cursor. simpl.
  unfold bind at 1. rewrite get_compile_options_open by reflexivity.
  destruct (eng_execute E pragma) as [e|rows]; [reflexivity|].
  unfold bind. rewrite print_loop. simpl.
  destruct (forallb has_first rows); simpl.
  - rewrite written_fields, stdout_of_app, stdout_of_written.
    simpl. now rewrite append_nil_r.
  - now rewrite written_fields, stdout_of_written.
Qed.

Lemma identifiers_reached (rows : list row) :
  forallb has_first rows = true ->
  map format_value (reached_fields rows) = identifiers rows.
Proof.
  induction rows as [|[|v r] rows IH]; simpl; intros H.
  - reflexivity.
  - discriminate.
  - now rewrite IH.
Qed.

Lemma identifiers_rows (rows : list row) :
  forallb has_first rows = true ->
  Forall2 (fun r l => exists v, nth_error r 0 = Some v /\ l = format_value v)
          rows (identifiers rows).
Proof.
  induction rows as [|[|v r] rows IH]; simpl; intros H.
  - constructor.
  - discriminate.
  - constructor; [exists v; split; reflexivity | now apply IH].
Qed.

Lemma reached_prefix (pre post : list row) :
  forallb has_first pre = true ->
  reached_fields (pre ++ [] :: post) = reached_fields pre.
Proof.
  induction pre as [|[|v r] pre IH]; simpl; intros H.
  - reflexivity.
  - discriminate.
  - now rewrite IH.
Qed.

Lemma empty_row_found (pre post : list row) :
  forallb has_first (pre ++ [] :: post) = false.
Proof.
  rewrite forallb_app. simpl. apply andb_false_r.
Qed.

Lemma first_fields_decide (rows1 rows2 : list row) :
  first_fields rows1 = first_fields rows2 ->
  reached_fields rows1 = reached_fields rows2 /\
  forallb has_first rows1 = forallb has_first rows2.
Proof.
  revert rows2.
  induction rows1 as [|r1 rows1 IH]; intros [|r2 rows2]; simpl;
    try discriminate; intros H.
  - split; reflexivity.
  - injection H as Hhd Htl.
    destruct (IH _ Htl) as [Hr Hf].
    destruct r1 as [|v1 r1], r2 as [|v2 r2]; simpl in *; try discriminate.
    + split; reflexivity.
    + injection Hhd as ->. rewrite Hr, Hf. split; reflexivity.
Qed.

Lemma nonempty_text_rows (rows : list row) :
  forallb first_is_nonempty_text rows = true ->
  forallb has_first rows = true /\
  Forall (fun l => l <> "") (identifiers rows).
Proof.
  induction rows as [|[|v r] rows IH]; simpl; intros H.
  - split; [reflexivity | constructor].
  - discriminate.
  - apply andb_true_iff in H as [Hv Hrows].
    destruct (IH Hrows) as [Hf Hne].
    split; [assumption|].
    constructor; [|assumption].
    destruct v as [| |[|c s]]; simpl in *; discriminate.
Qed.

(** ** The claims *)




(** C2: when the engine answers the query with rows that each have a
    first field, standard output consists of exactly one line per row,
    the line of a row being its first field, in the order of the rows;
    nothing is written before the first or after the last of them. *)
Theorem one_line_per_row (E : engine) (argv : list string) (rows : list row) :
  eng_connect E ":memory:" = None ->
  eng_execute E pragma = inr rows ->
  forallb has_first rows = true ->
  stdout (python E argv) = unlines (identifiers rows) /\
  Forall2 (fun r l => exists v, nth_error r 0 = Some v /\ l = format_value v)
          rows (identifiers rows) /\
  events (python E argv) =
    ([Connected ":memory:" 0; Executed pragma; Fetched (length rows)] ++
     map (fun l => Written (l ++ newline)) (identifiers rows) ++
     [Closed 0])%list /\
  (forallb (fun l => negb (has_newline l)) (identifiers rows) = true ->
   split_lines (stdout (python E argv)) = identifiers rows).
Proof.
  intros Hc Hq Hrows.
  rewrite python_cases, Hc, Hq. cbv zeta. rewrite Hrows.
  rewrite (identifiers_reached rows Hrows). cbn [stdout events].
  repeat split.
  - now apply identifiers_rows.
  - apply split_lines_unlines.
Qed.

Lemma one_line_per_row_witness :
  eng_connect (engine_returning example_rows) ":memory:" = None /\
  eng_execute (engine_returning example_rows) pragma = inr example_rows /\
  forallb has_first example_rows = true /\
  stdout (python (engine_returning example_rows) []) =
    unlines ["THREADSAFE"; "ENABLE_FTS5"].
Proof.
  split; [reflexivity|]. split; [reflexivity|]. split; [reflexivity|].
  apply (one_line_per_row (engine_returning example_rows) [] example_rows);
    reflexivity.
Defined.



(** C4: when the connection cannot be acquired, the program ends with a
    non-zero exit status, the error stream carries the report of the
    exception, and nothing is written to standard output. *)
Theorem connect_failure_prints_nothing
    (E : engine) (argv : list string) (e : exn) :
  eng_connect E ":memory:" = Some e ->
  exit_status (python E argv) <> 0%Z /\
  stderr (python E argv) = traceback e /\
  stderr (python E argv) <> "" /\
  stdout (python E argv) = "" /\
  events (python E argv) = [].
Proof.
  intros Hc. rewrite python_cases, Hc. simpl.
  repeat split; discriminate.
Qed.

Lemma connect_failure_prints_nothing_witness :
  eng_connect engine_unavailable ":memory:" =
    Some (Sqlite3Error "OperationalError" "unable to open database file") /\
  exit_status (python engine_unavailable []) <> 0%Z /\
  stderr (python engine_unavailable []) =
    traceback (Sqlite3Error "OperationalError" "unable to open database file") /\
  stderr (python engine_unavailable []) <> "" /\
  stdout (python engine_unavailable []) = "" /\
  events (python engine_unavailable []) = [].
Proof.
  split; [reflexivity|].
  apply (connect_failure_prints_nothing engine_unavailable []).
  reflexivity.
Defined.

(** C5: when the engine answers the query with no rows, the lister
    returns the empty sequence, nothing is written to standard output and
    the exit status is 0. *)
Theorem no_options_prints_nothing (E : engine) (argv : list string) :
  eng_connect E ":memory:" = None ->
  eng_execute E pragma = inr [] ->
  (forall cur w, is_open cur w = true ->
     fst (get_compile_options E cur w) = Ok []) /\
  stdout (python E argv) = "" /\
  exit_status (python E argv) = 0%Z.
Proof.
  intros Hc Hq. split.
  - intros cur w Hopen.
    now rewrite get_compile_options_open, Hq by assumption.
  - rewrite python_cases, Hc, Hq. split; reflexivity.
Qed.

Lemma no_options_prints_nothing_witness :
  eng_connect (engine_returning []) ":memory:" = None /\
  eng_execute (engine_returning []) pragma = inr [] /\
  stdout (python (engine_returning []) []) = "" /\
  exit_status (python (engine_returning []) []) = 0%Z.
Proof.
  split; [reflexivity|]. split; [reflexivity|].
  apply (no_options_prints_nothing (engine_returning []) []); reflexivity.
Defined.

(** C6: two answers of the same length that agree on the first field of
    every row (or on its absence) give the same standard output, whatever
    the other fields are; the error stream and the exit status agree as
    well. *)
Theorem output_depends_on_first_fields_only
    (E1 E2 : engine) (argv : list string) (rows1 rows2 : list row) :
  eng_connect E1 ":memory:" = eng_connect E2 ":memory:" ->
  eng_execute E1 pragma = inr rows1 ->
  eng_execute E2 pragma = inr rows2 ->
  length rows1 = length rows2 ->
  first_fields rows1 = first_fields rows2 ->
  stdout (python E1 argv) = stdout (python E2 argv) /\
  stderr (python E1 argv) = stderr (python E2 argv) /\
  exit_status (python E1 argv) = exit_status (python E2 argv).
Proof.
  intros Hc Hq1 Hq2 Hlen Hfirst.
  destruct (first_fields_decide rows1 rows2 Hfirst) as [Hr Hf].
  rewrite !python_cases, Hc, Hq1, Hq2. cbv zeta. rewrite Hr, Hf, Hlen.
  repeat split.
Qed.

Lemma output_depends_on_first_fields_only_witness :
  length example_rows_wide = length example_rows /\
  first_fields example_rows_wide = first_fields example_rows /\
  example_rows_wide <> example_rows /\
  stdout (python (engine_returning example_rows_wide) []) =
    stdout (python (engine_returning example_rows) []).
Proof.
  split; [reflexivity|]. split; [reflexivity|]. split; [discriminate|].
  apply (output_depends_on_first_fields_only
           (engine_returning example_rows_wide) (engine_returning example_rows)
           [] example_rows_wide example_rows); reflexivity.
Defined.

Lemma get_compile_options_closed (E : engine) (cur : cursor) (w : world) :
  is_open cur w = false ->
  get_compile_options E cur w = (Raise closed_database, w).
Proof.
  intros Hclosed.
  unfold get_compile_options, bind, cursor_execute. now rewrite Hclosed.
Qed.

Lemma get_compile_options_keeps_open (E : engine) (cur : cursor) (w : world) :
  w_open (snd (get_compile_options E cur w)) = w_open w.
Proof.
  destruct (is_open cur w) eqn:Hopen.
  - rewrite get_compile_options_open by assumption.
    destruct (eng_execute E pragma); reflexivity.
  - now rewrite get_compile_options_closed.
Qed.

(** C7: the lister and the program depend on the engine only through its
    answers to [connect(":memory:")] and to the pragma.  Calling the
    lister a second time, right after the first call, returns the same
    rows (or raises the same exception); two engines with the same
    answers give the same rows and the same run of the program. *)
Theorem lister_deterministic (E1 E2 : engine) (argv : list string) :
  eng_connect E1 ":memory:" = eng_connect E2 ":memory:" ->
  eng_execute E1 pragma = eng_execute E2 pragma ->
  (forall cur w,
     fst (get_compile_options E1 cur (snd (get_compile_options E1 cur w))) =
     fst (get_compile_options E1 cur w)) /\
  (forall cur w,
     fst (get_compile_options E1 cur w) = fst (get_compile_options E2 cur w)) /\
  python E1 argv = python E2 argv.
Proof.
  intros Hc Hq. split; [|split].
  - intros cur w.
    assert (Hsame : is_open cur (snd (get_compile_options E1 cur w)) =
                    is_open cur w).
    { unfold is_open. now rewrite get_compile_options_keeps_open. }
    destruct (is_open cur w) eqn:Hopen.
    + rewrite (get_compile_options_open E1 cur _ Hsame).
      rewrite (get_compile_options_open E1 cur w Hopen).
      destruct (eng_execute E1 pragma); reflexivity.
    + rewrite (get_compile_options_closed E1 cur _ Hsame).
      now rewrite (get_compile_options_closed E1 cur w Hopen).
  - intros cur w. destruct (is_open cur w) eqn:Hopen.
    + rewrite !get_compile_options_open, Hq by assumption. reflexivity.
    + now rewrite !get_compile_options_closed.
  - now rewrite !python_cases, Hc, Hq.
Qed.

Lemma lister_deterministic_witness :
  eng_connect engine_example_verbose ":memory:" =
    eng_connect (engine_returning example_rows) ":memory:" /\
  eng_execute engine_example_verbose pragma =
    eng_execute (engine_returning example_rows) pragma /\
  python engine_example_verbose [] = python (engine_returning example_rows) [].
Proof.
  split; [reflexivity|]. split; [reflexivity|].
  apply (lister_deterministic engine_example_verbose
           (engine_returning example_rows) []); reflexivity.
Defined.

Lemma text_identifiers_rows (rows : list row) :
  forallb first_is_nonempty_text rows = true ->
  Forall2 (fun r l => nth_error r 0 = Some (VStr l)) rows (identifiers rows).
Proof.
  induction rows as [|[|v r] rows IH]; simpl; intros H.
  - constructor.
  - discriminate.
  - apply andb_true_iff in H as [Hv Hrows].
    destruct v as [| |s]; simpl in Hv; try discriminate.
    constructor; [reflexivity | now apply IH].
Qed.

(** C8, as stated, fails: the program passes on whatever the engine
    returns.  For an answer whose only row holds the empty text, the
    lister returns that row, the identifier is empty, and the program
    prints one empty line and succeeds. *)
Lemma empty_identifier_is_printed :
  fst (get_compile_options (engine_returning [[VStr ""]]) 0
         (connected_world (engine_returning [[VStr ""]]))) = Ok [[VStr ""]] /\
  identifiers [[VStr ""]] = [""] /\
  split_lines (stdout (python (engine_returning [[VStr ""]]) [])) = [""] /\
  ~ Forall (fun l => l <> "")
      (split_lines (stdout (python (engine_returning [[VStr ""]]) []))) /\
  exit_status (python (engine_returning [[VStr ""]]) []) = 0%Z.
Proof.
  split; [reflexivity|]. split; [reflexivity|]. split; [reflexivity|].
  split; [|reflexivity].
  intros H. inversion H as [|l ls Hl Hls]. now apply Hl.
Qed.

(** C8, amended: the program does not check the rows.  When the first
    field of every row the engine returns is a non-empty text, every
    identifier is that text and is non-empty, every write to standard
    output is a non-empty text followed by a line break, and, when no
    identifier contains a line break, no line of standard output is
    empty. *)
Theorem identifiers_nonempty_when_rows_are
    (E : engine) (argv : list string) (rows : list row) :
  eng_connect E ":memory:" = None ->
  eng_execute E pragma = inr rows ->
  forallb first_is_nonempty_text rows = true ->
  Forall2 (fun r l => nth_error r 0 = Some (VStr l)) rows (identifiers rows) /\
  Forall (fun l => l <> "") (identifiers rows) /\
  stdout (python E argv) = unlines (identifiers rows) /\
  (forall s, In (Written s) (events (python E argv)) ->
     exists l, s = l ++ newline /\ l <> "") /\
  (forallb (fun l => negb (has_newline l)) (identifiers rows) = true ->
   Forall (fun l => l <> "") (split_lines (stdout (python E argv)))).
Proof.
  intros Hc Hq Htext.
  destruct (nonempty_text_rows rows Htext) as [Hrows Hne].
  rewrite python_cases, Hc, Hq. cbv zeta. rewrite Hrows.
  rewrite (identifiers_reached rows Hrows). cbn [stdout events].
  split; [now apply text_identifiers_rows|].
  split; [assumption|]. split; [reflexivity|]. split.
  - intros s Hin.
    apply in_app_or in Hin as [Hin | Hin].
    { simpl in Hin. destruct Hin as [H | [H | [H | []]]]; discriminate. }
    apply in_app_or in Hin as [Hin | Hin].
    + apply in_map_iff in Hin as [l [Hl Hin]].
      injection Hl as <-. exists l. split; [reflexivity|].
      rewrite Forall_forall in Hne. now apply Hne.
    + simpl in Hin. destruct Hin as [H | []]. discriminate.
  - intros Hnl. now rewrite split_lines_unlines.
Qed.

Lemma identifiers_nonempty_when_rows_are_witness :
  eng_connect (engine_returning example_rows) ":memory:" = None /\
  eng_execute (engine_returning example_rows) pragma = inr example_rows /\
  forallb first_is_nonempty_text example_rows = true /\
  Forall (fun l => l <> "")
    (split_lines (stdout (python (engine_returning example_rows) []))).
Proof.
  split; [reflexivity|]. split; [reflexivity|]. split; [reflexivity|].
  apply (identifiers_nonempty_when_rows_are
           (engine_returning example_rows) [] example_rows); reflexivity.
Defined.

(** C9: the print loop subscripts every row at 0 unguarded.  Given an
    answer from the engine, the run succeeds exactly when every row has
    a first field; when the answer contains an empty row, the first
    fields of the rows in front of the first empty row are printed, the
    run ends with an [IndexError] reported on the error stream, and the
    exit status is not 0. *)
Theorem index_error_on_empty_row
    (E : engine) (argv : list string) (rows : list row) :
  eng_connect E ":memory:" = None ->
  eng_execute E pragma = inr rows ->
  (exit_status (python E argv) = 0%Z <-> forallb has_first rows = true) /\
  (forall pre post,
     rows = (pre ++ [] :: post)%list ->
     forallb has_first pre = true ->
     stdout (python E argv) = unlines (identifiers pre) /\
     stderr (python E argv) = traceback index_error /\
     exit_status (python E argv) = 1%Z).
Proof.
  intros Hc Hq. rewrite python_cases, Hc, Hq. cbv zeta. split.
  - destruct (forallb has_first rows); simpl; split; intros H;
      first [reflexivity | discriminate].
  - intros pre post -> Hpre.
    rewrite empty_row_found, reached_prefix by assumption.
    rewrite (identifiers_reached pre Hpre).
    repeat split.
Qed.

Lemma index_error_on_empty_row_witness :
  eng_connect (engine_returning rows_with_gap) ":memory:" = None /\
  eng_execute (engine_returning rows_with_gap) pragma = inr rows_with_gap /\
  stdout (python (engine_returning rows_with_gap) []) =
    unlines ["THREADSAFE"] /\
  stderr (python (engine_returning rows_with_gap) []) =
    traceback index_error /\
  exit_status (python (engine_returning rows_with_gap) []) = 1%Z.
Proof.
  split; [reflexivity|]. split; [reflexivity|].
  apply (proj2 (index_error_on_empty_row
                  (engine_returning rows_with_gap) [] rows_with_gap
                  eq_refl eq_refl)
               [[VStr "THREADSAFE"]] [[VStr "ENABLE_FTS5"]]); reflexivity.
Defined.

(** C10: the command-line arguments are never read: two runs against the
    same engine with different argument vectors have the same events,
    standard output, error stream and exit status. *)
Theorem behaviour_independent_of_argv
    (E : engine) (argv1 argv2 : list string) :
  python E argv1 = python E argv2.
Proof. now rewrite !python_cases. Qed.

(** ** Further properties of the script *)

Lemma is_open_fresh (c : handle) (w : world) (tr : list event)
    (rs : list row) (a : list string) :
  is_open c {| w_argv := a; w_trace := tr; w_open := c :: w_open w;
               w_next := S c; w_result := rs |} = true.
Proof. unfold is_open. simpl. now rewrite Nat.eqb_refl. Qed.

Lemma close_fresh (c : handle) (opened : list handle) :
  forallb (fun c' => Nat.ltb c' c) opened = true ->
  filter (fun c' => negb (Nat.eqb c c')) (c :: opened) = opened.
Proof.
  intros Hwf. simpl. rewrite Nat.eqb_refl. simpl.
  induction opened as [|c' opened IH]; simpl in *; [reflexivity|].
  apply andb_true_iff in Hwf as [Hlt Hrest].
  apply Nat.ltb_lt in Hlt.
  assert (Hne : Nat.eqb c c' = false) by (apply Nat.eqb_neq; lia).
  rewrite Hne. simpl. now rewrite IH.
Qed.

(** [main] from any state of the interpreter, by the engine's answers. *)
Lemma main_cases (E : engine) (w : world) :
  main E w =
    match eng_connect E ":memory:" with
    | Some e => (Raise e, w)
    | None =>
        let c := w_next w in
        match eng_execute E pragma with
        | inl e =>
            (Raise e,
             {| w_argv := w_argv w;
                w_trace := w_trace w ++ [Connected ":memory:" c];
                w_open := c :: w_open w;
                w_next := S c;
                w_result := [] |})
        | inr rows =>
            let shown :=
              map (fun v => Written (format_value v ++ newline))
                  (reached_fields rows) in
            if forallb has_first rows then
              (Ok tt,
               {| w_argv := w_argv w;
                  w_trace := w_trace w ++
                    [Connected ":memory:" c; Executed pragma;
                     Fetched (length rows)] ++ shown ++ [Closed c];
                  w_open := filter (fun c' => negb (Nat.eqb c c'))
                                   (c :: w_open w);
                  w_next := S c;
                  w_result := [] |})
            else
              (Raise index_error,
               {| w_argv := w_argv w;
                  w_trace := w_trace w ++
                    [Connected ":memory:" c; Executed pragma;
                     Fetched (length rows)] ++ shown;
                  w_open := c :: w_open w;
                  w_next := S c;
                  w_result := [] |})
        end
    end.
Proof.
  unfold main, bind at 1, sqlite3_connect.
  destruct (eng_connect E ":memory:") as [e|]; [reflexivity|].
  cbv zeta. unfold bind at 1, conn_cursor. rewrite is_open_fresh.
  unfold bind at 1.
  rewrite get_compile_options_open by apply is_open_fresh.
  destruct (eng_execute E pragma) as [e|rows]; [reflexivity|].
  unfold bind. rewrite print_loop. cbn [w_argv w_trace w_open w_next w_result].
  destruct (forallb has_first rows).
  - unfold conn_close. rewrite is_open_fresh.
    cbn [w_argv w_trace w_open w_next w_result].
    now rewrite <- !app_assoc.
  - now rewrite <- !app_assoc.
Qed.

Lemma main_complete (E : engine) (w : world) (rows : list row) :
  eng_connect E ":memory:" = None ->
  eng_execute E pragma = inr rows ->
  forallb has_first rows = true ->
  main E w =
    (Ok tt,
     {| w_argv := w_argv w;
        w_trace := w_trace w ++ pass_events (w_next w) rows;
        w_open := filter (fun c' => negb (Nat.eqb (w_next w) c'))
                         (w_next w :: w_open w);
        w_next := S (w_next w);
        w_result := [] |}).
Proof.
  intros Hc Hq Hrows.
  rewrite main_cases, Hc, Hq. cbv zeta. rewrite Hrows.
  unfold pass_events.
  now rewrite written_fields, (identifiers_reached rows Hrows).
Qed.

Lemma stdout_of_pass (c : handle) (rows : list row) :
  stdout_of (pass_events c rows) = unlines (identifiers rows).
Proof.
  unfold pass_events. cbn [app stdout_of].
  rewrite stdout_of_app, stdout_of_written. simpl.
  now rewrite append_nil_r.
Qed.

Lemma ltb_succ_all (c : handle) (opened : list handle) :
  forallb (fun c' => Nat.ltb c' c) opened = true ->
  forallb (fun c' => Nat.ltb c' (S c)) opened = true.
Proof.
  induction opened as [|c' opened IH]; simpl; [reflexivity|].
  intros H. apply andb_true_iff in H as [Hlt Hrest].
  apply Nat.ltb_lt in Hlt.
  rewrite (IH Hrest), andb_true_r. apply Nat.ltb_lt. lia.
Qed.

(** The lister writes nothing to standard output and neither opens nor
    closes a connection, whether it returns rows or raises. *)
Theorem lister_is_silent (E : engine) (cur : cursor) (w : world) :
  stdout_of (w_trace (snd (get_compile_options E cur w))) =
    stdout_of (w_trace w) /\
  w_open (snd (get_compile_options E cur w)) = w_open w /\
  acquisitions (w_trace (snd (get_compile_options E cur w))) =
    acquisitions (w_trace w) /\
  releases (w_trace (snd (get_compile_options E cur w))) =
    releases (w_trace w).
Proof.
  destruct (is_open cur w) eqn:Hopen.
  - rewrite get_compile_options_open by assumption.
    destruct (eng_execute E pragma) as [e|rows]; cbn [snd w_trace w_open].
    + repeat split.
    + rewrite stdout_of_app, acquisitions_app, releases_app. simpl.
      rewrite append_nil_r, !Nat.add_0_r. repeat split.
  - rewrite get_compile_options_closed by assumption. repeat split.
Qed.

(** When the lister returns, what it returns is the engine's whole answer
    to the pragma, whatever rows were pending on the cursor before, and
    no row is left on the cursor: a [fetchall] right after it returns the
    empty list. *)
Theorem lister_drains_cursor
    (E : engine) (cur : cursor) (w : world) (rows : list row) :
  fst (get_compile_options E cur w) = Ok rows ->
  eng_execute E pragma = inr rows /\
  w_result (snd (get_compile_options E cur w)) = [] /\
  fst (cursor_fetchall cur (snd (get_compile_options E cur w))) = Ok [].
Proof.
  destruct (is_open cur w) eqn:Hopen.
  - assert (Hkeep : is_open cur (snd (get_compile_options E cur w)) = true).
    { unfold is_open. rewrite get_compile_options_keeps_open. exact Hopen. }
    unfold cursor_fetchall. rewrite Hkeep. revert Hkeep.
    rewrite get_compile_options_open by assumption.
    destruct (eng_execute E pragma) as [e|rows']; simpl.
    + discriminate.
    + intros _ [= ->]. repeat split.
  - rewrite get_compile_options_closed by assumption. discriminate.
Qed.

Lemma lister_drains_cursor_witness :
  fst (get_compile_options (engine_returning example_rows) 0 stale_world) =
    Ok example_rows /\
  fst (cursor_fetchall 0
         (snd (get_compile_options (engine_returning example_rows) 0
                 stale_world))) = Ok [].
Proof.
  split; [reflexivity|].
  apply (lister_drains_cursor (engine_returning example_rows) 0 stale_world
           example_rows).
  reflexivity.
Defined.

(** Called in an interpreter whose handles are in order, a [main] that
    returns leaves the open connections exactly as it found them: the
    one it opened is closed again and no other is touched; the events of
    one complete pass are appended to the trace. *)
Theorem main_restores_open_connections (E : engine) (w : world) :
  wf_world w = true ->
  fst (main E w) = Ok tt ->
  w_open (snd (main E w)) = w_open w /\
  exists rows,
    eng_execute E pragma = inr rows /\
    w_trace (snd (main E w)) = (w_trace w ++ pass_events (w_next w) rows)%list.
Proof.
  intros Hwf. rewrite main_cases.
  destruct (eng_connect E ":memory:") as [e|]; [discriminate|].
  destruct (eng_execute E pragma) as [e|rows]; [discriminate|].
  cbv zeta. destruct (forallb has_first rows) eqn:Hrows; [|discriminate].
  intros _. cbn [snd w_open w_trace]. split.
  - now apply close_fresh.
  - exists rows. split; [reflexivity|].
    unfold pass_events.
    now rewrite written_fields, (identifiers_reached rows Hrows).
Qed.

Lemma main_restores_open_connections_witness :
  wf_world busy_world = true /\
  fst (main (engine_returning example_rows) busy_world) = Ok tt /\
  w_open (snd (main (engine_returning example_rows) busy_world)) = [1; 0].
Proof.
  split; [reflexivity|]. split; [reflexivity|].
  apply (main_restores_open_connections
           (engine_returning example_rows) busy_world); reflexivity.
Defined.

(** Whatever the engine answers, [main] keeps the interpreter state in
    order: handles stay in increasing order, [sys.argv] is untouched, the
    trace only grows, and at most one connection more is open afterwards
    than before. *)
Theorem main_keeps_world_in_order (E : engine) (w : world) :
  wf_world w = true ->
  wf_world (snd (main E w)) = true /\
  w_argv (snd (main E w)) = w_argv w /\
  (exists evs, w_trace (snd (main E w)) = (w_trace w ++ evs)%list) /\
  (w_open (snd (main E w)) = w_open w \/
   w_open (snd (main E w)) = w_next w :: w_open w).
Proof.
  intros Hwf. rewrite main_cases.
  assert (Hfresh : wf_world
            {| w_argv := w_argv w; w_trace := []; w_open := w_next w :: w_open w;
               w_next := S (w_next w); w_result := [] |} = true).
  { unfold wf_world in *. simpl.
    rewrite (ltb_succ_all _ _ Hwf), andb_true_r. apply Nat.ltb_lt. lia. }
  destruct (eng_connect E ":memory:") as [e|].
  { cbn [snd]. repeat split; auto. exists []. now rewrite app_nil_r. }
  destruct (eng_execute E pragma) as [e|rows]; cbv zeta.
  { cbn [snd w_argv w_trace w_open]. repeat split; eauto. }
  destruct (forallb has_first rows);
    cbn [snd w_argv w_trace w_open]; repeat split; eauto.
  - unfold wf_world in *. cbn [w_open w_next].
    rewrite close_fresh by assumption. now apply ltb_succ_all.
  - left. now apply close_fresh.
Qed.

Lemma main_keeps_world_in_order_witness :
  wf_world busy_world = true /\
  wf_world (snd (main engine_rejecting_query busy_world)) = true /\
  w_argv (snd (main engine_rejecting_query busy_world)) = [].
Proof.
  split; [reflexivity|].
  destruct (main_keeps_world_in_order engine_rejecting_query busy_world
              eq_refl) as [Hwf [Hargv _]].
  split; assumption.
Defined.

(** Calling [main] twice in a row in one interpreter prints the listing
    twice: the second call connects afresh (on the next handle), runs
    the query again and appends the same lines. *)
Theorem main_twice_prints_twice
    (E : engine) (w : world) (rows : list row) :
  eng_connect E ":memory:" = None ->
  eng_execute E pragma = inr rows ->
  forallb has_first rows = true ->
  fst ((main E ;;; main E) w) = Ok tt /\
  w_trace (snd ((main E ;;; main E) w)) =
    (w_trace w ++ pass_events (w_next w) rows ++
     pass_events (S (w_next w)) rows)%list /\
  stdout_of (w_trace (snd ((main E ;;; main E) w))) =
    stdout_of (w_trace w) ++
    unlines (identifiers rows) ++ unlines (identifiers rows).
Proof.
  intros Hc Hq Hrows. unfold bind.
  rewrite (main_complete E w rows Hc Hq Hrows).
  rewrite (main_complete E _ rows Hc Hq Hrows).
  cbn [fst snd w_trace w_next]. split; [reflexivity|]. split.
  - now rewrite <- app_assoc.
  - now rewrite !stdout_of_app, !stdout_of_pass, append_assoc.
Qed.

Lemma main_twice_prints_twice_witness :
  stdout_of (w_trace (snd ((main (engine_returning example_rows) ;;;
                            main (engine_returning example_rows))
                             (initial_world [])))) =
    unlines ["THREADSAFE"; "ENABLE_FTS5"; "THREADSAFE"; "ENABLE_FTS5"].
Proof.
  apply (main_twice_prints_twice (engine_returning example_rows)
           (initial_world []) example_rows); reflexivity.
Defined.

Lemma unlines_app (a b : list string) :
  unlines (a ++ b) = unlines a ++ unlines b.
Proof.
  induction a as [|l a IH]; simpl; [reflexivity|].
  now rewrite IH, !append_assoc.
Qed.

Lemma reached_is_prefix (rows : list row) :
  exists rest,
    identifiers rows = (map format_value (reached_fields rows) ++ rest)%list.
Proof.
  induction rows as [|[|v r] rows [rest IH]].
  - now exists [].
  - now exists (identifiers ([] :: rows)).
  - exists rest. simpl. now rewrite IH.
Qed.




Lemma statements_app (t1 t2 : list event) :
  statements (t1 ++ t2) = (statements t1 ++ statements t2)%list.
Proof.
  induction t1 as [|ev t1 IH]; simpl; [reflexivity|].
  destruct ev; simpl; rewrite IH; reflexivity.
Qed.

Lemma statements_written (ls : list string) :
  statements (map (fun l => Written (l ++ newline)) ls) = [].
Proof. induction ls; simpl; auto. Qed.

(** Whatever the engine answers, standard output is an initial part of
    the full listing: the program never prints anything but the
    identifiers of the answer, in order, from the first one on. *)
Theorem stdout_is_prefix_of_listing
    (E : engine) (argv : list string) (rows : list row) :
  eng_execute E pragma = inr rows ->
  exists rest, unlines (identifiers rows) = stdout (python E argv) ++ rest.
Proof.
  intros Hq. rewrite python_cases, Hq.
  destruct (eng_connect E ":memory:") as [e|].
  { now exists (unlines (identifiers rows)). }
  cbv zeta. destruct (reached_is_prefix rows) as [rest Hrest].
  exists (unlines rest).
  destruct (forallb has_first rows); cbn [stdout];
    now rewrite Hrest, unlines_app.
Qed.

Lemma stdout_is_prefix_of_listing_witness :
  exists rest,
    unlines (identifiers rows_with_gap) =
    stdout (python (engine_returning rows_with_gap) []) ++ rest.
Proof.
  apply (stdout_is_prefix_of_listing (engine_returning rows_with_gap) []
           rows_with_gap).
  reflexivity.
Defined.

(** In every run the engine executes at most one statement, and that
    statement is the pragma: the program never sends any other SQL. *)
Theorem only_the_pragma_is_executed (E : engine) (argv : list string) :
  statements (events (python E argv)) = [] \/
  statements (events (python E argv)) = [pragma].
Proof.
  rewrite python_cases.
  destruct (eng_connect E ":memory:") as [e|]; [now left|].
  destruct (eng_execute E pragma) as [e|rows]; [now left|].
  right. cbv zeta.
  destruct (forallb has_first rows); cbn [events app statements];
    rewrite ?statements_app, statements_written; reflexivity.
Qed.





Lemma reached_stops_at_empty (pre post1 post2 : list row) :
  reached_fields (pre ++ [] :: post1) = reached_fields (pre ++ [] :: post2).
Proof.
  induction pre as [|[|v r] pre IH]; simpl; [reflexivity | reflexivity |].
  now rewrite IH.
Qed.

(** The print loop never looks past the first empty row: two answers
    that are the same up to and including an empty row give the same
    standard output, error stream and exit status, whatever rows follow. *)
Theorem rows_after_empty_row_are_ignored
    (E1 E2 : engine) (argv : list string) (pre post1 post2 : list row) :
  eng_connect E1 ":memory:" = eng_connect E2 ":memory:" ->
  eng_execute E1 pragma = inr (pre ++ [] :: post1)%list ->
  eng_execute E2 pragma = inr (pre ++ [] :: post2)%list ->
  stdout (python E1 argv) = stdout (python E2 argv) /\
  stderr (python E1 argv) = stderr (python E2 argv) /\
  exit_status (python E1 argv) = exit_status (python E2 argv).
Proof.
  intros Hc Hq1 Hq2.
  rewrite !python_cases, Hc, Hq1, Hq2. cbv zeta.
  rewrite !empty_row_found, (reached_stops_at_empty pre post1 post2).
  destruct (eng_connect E2 ":memory:"); repeat split.
Qed.

Lemma rows_after_empty_row_are_ignored_witness :
  stdout (python (engine_returning rows_with_gap) []) =
    stdout (python (engine_returning [[VStr "THREADSAFE"]; []]) []) /\
  stderr (python (engine_returning rows_with_gap) []) =
    stderr (python (engine_returning [[VStr "THREADSAFE"]; []]) []) /\
  exit_status (python (engine_returning rows_with_gap) []) =
    exit_status (python (engine_returning [[VStr "THREADSAFE"]; []]) []).
Proof.
  apply (rows_after_empty_row_are_ignored
           (engine_returning rows_with_gap)
           (engine_returning [[VStr "THREADSAFE"]; []]) []
           [[VStr "THREADSAFE"]] [[VStr "ENABLE_FTS5"]] []); reflexivity.
Defined.
